(** * The generator page of the infographic client (frontend/src/App.js)

    A shallow embedding of [GeneratorPage]: its four [useState] cells, the
    asynchronous handler [generateInfographic], the handler [downloadImage]
    and the JSX it renders, together with the browser's event loop as far
    as the page uses it (clicks, one pending HTTP request, timers).  The
    model follows one mounted instance of the component. *)

From Stdlib Require Import String List Bool NArith Lia PrimFloat Permutation.
Import ListNotations.
Local Open Scope string_scope.
Local Open Scope list_scope.
Set Warnings "-register-all".

(** ** JavaScript values *)

(** What [JSON.parse] can produce, plus [undefined].  Numbers are IEEE
    binary64, as in JavaScript. *)
Inductive jsval : Type :=
| JUndefined
| JNull
| JBool (b : bool)
| JNum (f : float)
| JStr (s : string)
| JArr (items : list jsval)
| JObj (fields : list (string * jsval)).

(** [ToBoolean]: undefined, null, false, +0, -0, NaN and the empty string are
    falsy, everything else (every array and object too) is truthy. *)
Definition truthy (v : jsval) : bool :=
  match v with
  | JUndefined | JNull => false
  | JBool b => b
  | JNum f => negb (PrimFloat.is_zero f || PrimFloat.is_nan f)
  | JStr s => negb (s =? "")
  | JArr _ | JObj _ => true
  end.

(** [a || b] and [a && b] return one of their operands. *)
Definition js_or (a b : jsval) : jsval := if truthy a then a else b.
Definition js_and (a b : jsval) : jsval := if truthy a then b else a.

Fixpoint lookup_field (k : string) (fields : list (string * jsval)) : jsval :=
  match fields with
  | [] => JUndefined
  | (k', v) :: rest => if k' =? k then v else lookup_field k rest
  end.

(** [v.k] for a property name [k] that no built-in prototype defines (the page
    reads [image_base64] and [detail] only): the own field of an object,
    [undefined] on every other value.  On null and undefined the access
    throws; both call sites guard it ([&&] and [?.]). *)
Definition get_prop (v : jsval) (k : string) : jsval :=
  match v with
  | JObj fields => lookup_field k fields
  | _ => JUndefined
  end.

(** [v?.k] *)
Definition opt_chain (v : jsval) (k : string) : jsval :=
  match v with
  | JUndefined | JNull => JUndefined
  | _ => get_prop v k
  end.

(** ** What axios hands back *)

Record response : Type := mkResponse {
  data : jsval;   (* the parsed body *)
  status : nat
}.

(** An [Error] object: axios' rejection value carries [response] when the
    server answered, and none when the request never got an answer. *)
Record js_error : Type := mkError {
  message : string;
  err_response : option response
}.

(** [new Error(msg)] *)
Definition Error (msg : string) : js_error := mkError msg None.

Inductive outcome : Type :=
| Resolved (r : response)
| Rejected (e : js_error).

(** [err.response?.data?.detail] *)
Definition response_detail (err : js_error) : jsval :=
  match err_response err with
  | None => JUndefined
  | Some r => opt_chain (data r) "detail"
  end.

(** ** Component state and the world around it *)

(** The four [useState] cells of [GeneratorPage]. *)
Record State : Type := mkState {
  loading : bool;
  generatedImage : jsval;
  error : jsval;
  loadingMessage : string
}.

(** Initial values of the [useState] calls. *)
Definition initial_state : State := mkState false JNull JNull "".

(** Every timer callback of the page is [() => setLoadingMessage(msg)]. *)
Record timer : Type := mkTimer {
  due : N;              (* milliseconds on the page clock *)
  timer_msg : string
}.

(** A request handed to [axios.post(url)]: no body, no config. *)
Record request : Type := mkRequest {
  req_method : string;
  req_url : string;
  req_body : option jsval
}.

(** The anchor element [downloadImage] builds. *)
Record anchor : Type := mkAnchor {
  href : jsval;
  download : string
}.

Inductive dom_event : Type :=
| AppendChild (a : anchor)
| ClickLink (a : anchor)
| RemoveChild (a : anchor).

Record World : Type := mkWorld {
  st : State;
  history : list State;       (* states committed earlier, latest first *)
  now : N;                    (* page clock, in milliseconds *)
  timers : list timer;        (* pending [setTimeout] callbacks *)
  inflight : list request;    (* requests awaiting their answer *)
  console : list (string * js_error);
  dom : list dom_event        (* effects on [document.body], in order *)
}.

Definition initial_world : World :=
  mkWorld initial_state [] 0%N [] [] [] [].

(** ** A monad for handler bodies: world passing with [throw] *)

Inductive completion (A : Type) : Type :=
| Normal (a : A)
| Throw (e : js_error).
Arguments Normal {A} a.
Arguments Throw {A} e.

Definition M (A : Type) : Type := World -> completion A * World.

Definition ret {A} (a : A) : M A := fun w => (Normal a, w).

Definition bind {A B} (m : M A) (k : A -> M B) : M B :=
  fun w =>
    match m w with
    | (Normal a, w') => k a w'
    | (Throw e, w') => (Throw e, w')
    end.

Definition throw {A} (e : js_error) : M A := fun w => (Throw e, w).

(** [try { body } catch (err) { handler err } finally { fin }] *)
Definition try_catch_finally {A} (body : M A) (handler : js_error -> M A)
    (fin : M unit) : M A :=
  fun w =>
    let '(c, w1) :=
      match body w with
      | (Normal a, w') => (Normal a, w')
      | (Throw e, w') => handler e w'
      end in
    match fin w1 with
    | (Normal _, w2) => (c, w2)
    | (Throw e, w2) => (Throw e, w2)
    end.

Declare Scope js_scope.
Delimit Scope js_scope with js.
Notation "x <- m ;; k" := (bind m (fun x => k))
  (at level 61, m at next level, right associativity) : js_scope.
Notation "m ;; k" := (bind m (fun _ => k))
  (at level 61, right associativity) : js_scope.
Local Open Scope js_scope.

(** The world a handler leaves behind. *)
Definition exec {A} (m : M A) (w : World) : World := snd (m w).

(** A state setter commits a new component state; the one it replaces is
    kept in [history]. *)
Definition commit (f : State -> State) : M unit :=
  fun w =>
    (Normal tt,
     mkWorld (f (st w)) (st w :: history w) (now w) (timers w) (inflight w)
             (console w) (dom w)).

Definition setLoading (b : bool) : M unit :=
  commit (fun s => mkState b (generatedImage s) (error s) (loadingMessage s)).
Definition setGeneratedImage (v : jsval) : M unit :=
  commit (fun s => mkState (loading s) v (error s) (loadingMessage s)).
Definition setError (v : jsval) : M unit :=
  commit (fun s => mkState (loading s) (generatedImage s) v (loadingMessage s)).
Definition setLoadingMessage (m : string) : M unit :=
  commit (fun s => mkState (loading s) (generatedImage s) (error s) m).

(** [setTimeout(() => setLoadingMessage(msg), delay)] *)
Definition setTimeout (msg : string) (delay : N) : M unit :=
  fun w =>
    (Normal tt,
     mkWorld (st w) (history w) (now w)
             (timers w ++ [mkTimer (now w + delay)%N msg])
             (inflight w) (console w) (dom w)).

(** [axios.post(url)]: the request leaves; the caller is suspended at the
    [await] until the request settles. *)
Definition axios_post (url : string) : M unit :=
  fun w =>
    (Normal tt,
     mkWorld (st w) (history w) (now w) (timers w)
             (inflight w ++ [mkRequest "POST" url None]) (console w) (dom w)).

Definition console_error (label : string) (err : js_error) : M unit :=
  fun w =>
    (Normal tt,
     mkWorld (st w) (history w) (now w) (timers w) (inflight w)
             (console w ++ [(label, err)]) (dom w)).

Definition dom_do (ev : dom_event) : M unit :=
  fun w =>
    (Normal tt,
     mkWorld (st w) (history w) (now w) (timers w) (inflight w) (console w)
             (dom w ++ [ev])).

(** [await p] resumes with the response or throws the rejection value. *)
Definition await (settled : outcome) : M response :=
  match settled with
  | Resolved r => ret r
  | Rejected e => throw e
  end.

(** ** The component *)

(** The environment the bundle is built in: [BACKEND_URL] is
    [process.env.REACT_APP_BACKEND_URL], read once when the module loads; an
    unset variable is [undefined]. *)
Class Env : Type := { BACKEND_URL : option string }.

Section GeneratorPage.

Context {env : Env}.

(** [`${BACKEND_URL}/api`]: a template literal prints undefined as the word. *)
Definition API : string :=
  match BACKEND_URL with
  | Some u => u
  | None => "undefined"
  end ++ "/api".

(** [generateInfographic], from its first line to the [await]: the part that
    runs inside the click handler. *)
Definition generateInfographic : M unit :=
  setLoading true ;;
  setError JNull ;;
  setGeneratedImage JNull ;;
  setLoadingMessage "Preparing your infographic..." ;;
  (* try { *)
  setTimeout "Analyzing data and structure..." 2000%N ;;
  setTimeout "Creating visual design with Visa blue theme..." 5000%N ;;
  setTimeout "Finalizing your infographic..." 10000%N ;;
  axios_post (API ++ "/generate-infographic").

(** The message the [catch] block puts on display. *)
Definition error_message (err : js_error) : jsval :=
  js_or (js_or (response_detail err) (JStr (message err)))
        (JStr "Failed to generate infographic. Please try again.").

(** [generateInfographic] from the [await] on, once the request has settled:
    the rest of the [try] block, the [catch] and the [finally]. *)
Definition generateInfographic_resume (settled : outcome) : M unit :=
  try_catch_finally
    (response <- await settled ;;
     if truthy (js_and (data response) (get_prop (data response) "image_base64"))
     then
       setGeneratedImage (get_prop (data response) "image_base64") ;;
       setLoadingMessage ""
     else
       throw (Error "No image data received"))
    (fun err =>
       console_error "Error generating infographic:" err ;;
       setError (error_message err) ;;
       setLoadingMessage "")
    (setLoading false).

(** [downloadImage]; the state it reads is the one of the latest render. *)
Definition downloadImage : M unit :=
  fun w =>
    if negb (truthy (generatedImage (st w))) then ret tt w
    else
      let link := mkAnchor (generatedImage (st w)) "visa-wwc-infographic.png" in
      (dom_do (AppendChild link) ;;
       dom_do (ClickLink link) ;;
       dom_do (RemoveChild link)) w.

(** *** What the component renders *)

Inductive handler : Type :=
| onGenerateInfographic
| onDownloadImage.

Record button : Type := mkButton {
  className : string;
  onClick : handler;
  disabled : bool;
  label : string
}.

(** The parts of the JSX that depend on the state. *)
Inductive node : Type :=
| GenerateButton (b : button)
| LoadingContainer (text : string)
| ErrorContainer (msg : jsval) (retry : button)
| ResultContainer (src : jsval) (dl regenerate : button)
| PlaceholderContainer.

Definition when (c : bool) (n : node) : list node := if c then [n] else [].

(** The four buttons of the page. *)
Definition generate_button (s : State) : button :=
  mkButton "generate-button" onGenerateInfographic (loading s)
           (if loading s then "Generating..." else "Generate Infographic").
Definition retry_button : button :=
  mkButton "retry-button" onGenerateInfographic false "Try Again".
Definition download_button : button :=
  mkButton "download-button" onDownloadImage false "Download PNG".
Definition regenerate_button : button :=
  mkButton "regenerate-button" onGenerateInfographic false "Generate New".

(** The element tree the component function returns for a state: the JSX
    with its conditions.  The error cell is handed on as the child of the
    error paragraph whatever value it is; whether React can put the tree on
    screen is [mount], further down. *)
Definition render (s : State) : list node :=
  when (negb (truthy (generatedImage s))) (GenerateButton (generate_button s))
  ++ when (loading s) (LoadingContainer (loadingMessage s))
  ++ when (truthy (error s)) (ErrorContainer (error s) retry_button)
  ++ when (truthy (generatedImage s) && negb (loading s))
       (ResultContainer (generatedImage s) download_button regenerate_button)
  ++ when (negb (loading s) && negb (truthy (error s))
           && negb (truthy (generatedImage s)))
       PlaceholderContainer.

Definition buttons_of (n : node) : list button :=
  match n with
  | GenerateButton b => [b]
  | ErrorContainer _ retry => [retry]
  | ResultContainer _ dl regenerate => [dl; regenerate]
  | LoadingContainer _ | PlaceholderContainer => []
  end.

Definition buttons (s : State) : list button := flat_map buttons_of (render s).

Definition find_button (cls : string) (s : State) : option button :=
  find (fun b => className b =? cls) (buttons s).

Definition run_handler (h : handler) : M unit :=
  match h with
  | onGenerateInfographic => generateInfographic
  | onDownloadImage => downloadImage
  end.

(** *** The event loop *)

(** A timer callback that has come due. *)
Definition run_timer (t : timer) : M unit := setLoadingMessage (timer_msg t).

(** The pending timer that fires next, and the timers left: the earliest
    due, the earlier scheduled one among equals. *)
Fixpoint pop_next (ts : list timer) : option (timer * list timer) :=
  match ts with
  | [] => None
  | t :: rest =>
      match pop_next rest with
      | Some (t', rest') =>
          if (due t' <? due t)%N then Some (t', t :: rest') else Some (t, rest)
      | None => Some (t, rest)
      end
  end.

Fixpoint remove_nth {A} (i : nat) (l : list A) : list A :=
  match i, l with
  | _, [] => []
  | O, _ :: rest => rest
  | S j, x :: rest => x :: remove_nth j rest
  end.

Inductive event : Type :=
| Click (cls : string)               (* the user clicks the button of that class *)
| Settle (i : nat) (o : outcome)     (* the i-th pending request settles *)
| Fire                               (* the next due timer fires *)
| Tick (dt : N).                      (* time passes *)

Definition set_timers (ts : list timer) (w : World) : World :=
  mkWorld (st w) (history w) (now w) ts (inflight w) (console w) (dom w).
Definition set_inflight (rs : list request) (w : World) : World :=
  mkWorld (st w) (history w) (now w) (timers w) rs (console w) (dom w).
Definition set_now (t : N) (w : World) : World :=
  mkWorld (st w) (history w) t (timers w) (inflight w) (console w) (dom w).

(** One turn of the event loop; [None] when the event cannot happen in [w]:
    a click needs its button rendered and not disabled, a settlement a
    pending request, a firing a timer that is due.  This is the loop of the
    component on its own; [page_step], further down, adds that React takes
    the page off the screen when it cannot mount what [render] returns. *)
Definition step (ev : event) (w : World) : option World :=
  match ev with
  | Click cls =>
      match find_button cls (st w) with
      | Some b => if disabled b then None else Some (exec (run_handler (onClick b)) w)
      | None => None
      end
  | Settle i o =>
      match nth_error (inflight w) i with
      | Some _ =>
          Some (exec (generateInfographic_resume o)
                     (set_inflight (remove_nth i (inflight w)) w))
      | None => None
      end
  | Fire =>
      match pop_next (timers w) with
      | Some (t, rest) =>
          if (due t <=? now w)%N
          then Some (exec (run_timer t) (set_timers rest w))
          else None
      | None => None
      end
  | Tick dt => Some (set_now (now w + dt)%N w)
  end.

Fixpoint run (evs : list event) (w : World) : option World :=
  match evs with
  | [] => Some w
  | ev :: rest =>
      match step ev w with
      | Some w' => run rest w'
      | None => None
      end
  end.

Definition reachable (w : World) : Prop :=
  exists evs, run evs initial_world = Some w.

(** *** Predicates on states *)

(** No image and error message held together. *)
Definition never_both (s : State) : Prop :=
  truthy (generatedImage s) && truthy (error s) = false.

(** Between the turns of the event loop the page is in one of two shapes:
    at rest (nothing pending, not loading, at most one of image and error),
    or waiting for its single pending request with image and error cleared. *)
Definition at_rest (w : World) : Prop :=
  inflight w = [] /\ loading (st w) = false /\ never_both (st w).

Definition waiting (w : World) : Prop :=
  (exists req, inflight w = [req]) /\ loading (st w) = true
  /\ generatedImage (st w) = JNull /\ error (st w) = JNull.

Definition page_inv (w : World) : Prop :=
  Forall never_both (history w) /\ (at_rest w \/ waiting w).

(** The [try] block completes normally exactly when the request resolved with
    a truthy [data] that has a truthy [image_base64]. *)
Definition image_of (settled : outcome) : option jsval :=
  match settled with
  | Resolved r =>
      if truthy (data r) && truthy (get_prop (data r) "image_base64")
      then Some (get_prop (data r) "image_base64") else None
  | Rejected _ => None
  end.

(** What reaches the [catch] block otherwise. *)
Definition caught_of (settled : outcome) : js_error :=
  match settled with
  | Resolved _ => Error "No image data received"
  | Rejected e => e
  end.

End GeneratorPage.

(** ** Concrete runs *)

Definition demo_env : Env := {| BACKEND_URL := Some "http://localhost:8001" |}.

Definition demo_image : string := "data:image/png;base64,iVBORw0KGgo=".

Definition demo_request : request :=
  mkRequest "POST" "http://localhost:8001/api/generate-infographic" None.

Definition image_response : response :=
  mkResponse (JObj [("image_base64", JStr demo_image)]) 200.

Definition empty_response : response := mkResponse (JObj []) 200.

Definition quota_error : js_error :=
  mkError "Request failed with status code 429"
          (Some (mkResponse (JObj [("detail", JStr "quota exceeded")]) 429)).

Definition empty_detail_error : js_error :=
  mkError "Request failed with status code 500"
          (Some (mkResponse (JObj [("detail", JStr "")]) 500)).

Definition network_error : js_error := mkError "Network Error" None.

(** The page right after the first click on the generate button. *)
Definition pending_world : World :=
  Eval vm_compute in exec (generateInfographic (env := demo_env)) initial_world.

(** A failed attempt, a retry, and the image arriving 2.5 s later, after the
    first timer of the retry has fired. *)
Definition demo_events : list event :=
  [Click "generate-button"; Settle 0 (Rejected network_error);
   Click "retry-button"; Tick 2500; Fire; Settle 0 (Resolved image_response)].

Definition result_world : World :=
  Eval vm_compute in
    match run (env := demo_env) demo_events initial_world with
    | Some w => w
    | None => initial_world
    end.

(** The image has arrived within a second; one more second later the first
    timer of that request is due. *)
Definition late_world : World :=
  Eval vm_compute in
    match run (env := demo_env)
              [Click "generate-button"; Tick 1000;
               Settle 0 (Resolved image_response); Tick 1000]
              initial_world with
    | Some w => w
    | None => initial_world
    end.

(** The page showing a failure. *)
Definition failed_world : World :=
  Eval vm_compute in
    match run (env := demo_env)
              [Click "generate-button"; Settle 0 (Rejected network_error)]
              initial_world with
    | Some w => w
    | None => initial_world
    end.

(** From the result view: regenerate, and the new request still pending. *)
Definition regenerating_world : World :=
  Eval vm_compute in
    match run (env := demo_env) [Click "regenerate-button"; Tick 100]
              result_world with
    | Some w => w
    | None => initial_world
    end.

Definition regenerate_failed_world : World :=
  Eval vm_compute in
    match step (env := demo_env) (Settle 0 (Rejected network_error))
               regenerating_world with
    | Some w => w
    | None => initial_world
    end.

(** ** Notions for the further properties *)

(** What one run of [downloadImage] with an image held does to the
    document. *)
Definition save_events (a : anchor) : list dom_event :=
  [AppendChild a; ClickLink a; RemoveChild a].

(** The three texts the timers carry, and the four that can stand next to
    the spinner. *)
Definition timer_texts : list string :=
  ["Analyzing data and structure...";
   "Creating visual design with Visa blue theme...";
   "Finalizing your infographic..."].

Definition progress_texts : list string :=
  "Preparing your infographic..." :: timer_texts.

(** The buttons whose [onClick] is [generateInfographic]. *)
Definition generate_classes : list string :=
  ["generate-button"; "retry-button"; "regenerate-button"].

Definition is_generate_click (ev : event) : bool :=
  match ev with
  | Click cls => existsb (String.eqb cls) generate_classes
  | _ => false
  end.

Definition is_fire (ev : event) : bool :=
  match ev with
  | Fire => true
  | _ => false
  end.

(** A cell that [x && (...)] in the JSX can test safely: null, or truthy. *)
Definition null_or_truthy (v : jsval) : Prop := v = JNull \/ truthy v = true.

(** ** What React can mount *)

(** A value React accepts as a child, as in [<p>{error}</p>]: strings and
    numbers are printed; booleans, null and undefined print nothing; an
    array is taken apart, child by child; on a plain object React throws
    (Objects are not valid as a React child). *)
Fixpoint valid_child (v : jsval) : bool :=
  match v with
  | JObj _ => false
  | JArr items => forallb valid_child items
  | _ => true
  end.

(** The one cell that is rendered as a child is [error], inside
    [error && (...)].  The image goes into the [src] attribute, which takes
    any value, and the progress message is a string. *)
Definition mountable (s : State) : bool :=
  negb (truthy (error s)) || valid_child (error s).

(** What is on screen: the tree of [render], or nothing at all when React
    throws on it.  The page has no error boundary, so React then removes
    the whole tree. *)
Definition mount (s : State) : option (list node) :=
  if mountable s then Some (render s) else None.

Section MountedPage.

Context {env : Env}.

(** What a callback still does once the component is gone: its state
    setters do nothing, the rest of it happens. *)
Definition freeze (w w' : World) : World :=
  mkWorld (st w) (history w) (now w') (timers w') (inflight w') (console w')
          (dom w').

(** One turn of the event loop of the page as React runs it.  While the tree
    can be mounted this is [step].  After React has removed the tree there
    is no button left to click, and timers and settlements no longer reach
    the state. *)
Definition page_step (ev : event) (w : World) : option World :=
  if mountable (st w) then step ev w
  else
    match ev with
    | Click _ => None
    | _ => option_map (freeze w) (step ev w)
    end.



End MountedPage.

(** An error response whose [detail] is an object, not a text. *)
Definition object_detail_error : js_error :=
  mkError "Request failed with status code 422"
          (Some (mkResponse
                   (JObj [("detail", JObj [("code", JStr "invalid")])]) 422)).

(** The page after such a response. *)
Definition unmounted_world : World :=
  Eval vm_compute in
    match step (env := demo_env) (Settle 0 (Rejected object_detail_error))
               pending_world with
    | Some w => w
    | None => initial_world
    end.

(** A response whose [image_base64] is there but empty. *)
Definition empty_image_response : response :=
  mkResponse (JObj [("image_base64", JStr "")]) 200.

(** [late_world] after its first timer has fired. *)
Definition late_fired_world : World :=
  Eval vm_compute in
    match step (env := demo_env) Fire late_world with
    | Some w => w
    | None => initial_world
    end.

(** The result view after one click on the download button. *)
Definition downloaded_world : World :=
  Eval vm_compute in
    match step (env := demo_env) (Click "download-button") result_world with
    | Some w => w
    | None => initial_world
    end.

(** ** Facts about the handlers *)

Section Properties.

Context {env : Env}.

Lemma generateInfographic_exec w :
  exec generateInfographic w =
  mkWorld
    (mkState true JNull JNull "Preparing your infographic...")
    (mkState true JNull JNull (loadingMessage (st w))
     :: mkState true (generatedImage (st w)) JNull (loadingMessage (st w))
     :: mkState true (generatedImage (st w)) (error (st w)) (loadingMessage (st w))
     :: st w :: history w)
    (now w)
    (timers w
     ++ [mkTimer (now w + 2000) "Analyzing data and structure...";
         mkTimer (now w + 5000) "Creating visual design with Visa blue theme...";
         mkTimer (now w + 10000) "Finalizing your infographic..."])
    (inflight w ++ [mkRequest "POST" (API ++ "/generate-infographic") None])
    (console w) (dom w).
Proof.
  unfold exec, generateInfographic. cbn.
  rewrite <- !app_assoc. reflexivity.
Qed.

Lemma resume_exec_image settled v w :
  image_of settled = Some v ->
  exec (generateInfographic_resume settled) w =
  mkWorld
    (mkState false v (error (st w)) "")
    (mkState (loading (st w)) v (error (st w)) ""
     :: mkState (loading (st w)) v (error (st w)) (loadingMessage (st w))
     :: st w :: history w)
    (now w) (timers w) (inflight w) (console w) (dom w).
Proof.
  destruct settled as [r | e]; cbn; [| discriminate].
  unfold exec, generateInfographic_resume, try_catch_finally, bind, js_and.
  cbn.
  destruct (truthy (data r)) eqn:Hd; cbn; [| discriminate].
  destruct (truthy (get_prop (data r) "image_base64")) eqn:Hi; cbn;
    [| discriminate].
  intros [= <-]. reflexivity.
Qed.

Lemma resume_exec_caught settled w :
  image_of settled = None ->
  exec (generateInfographic_resume settled) w =
  mkWorld
    (mkState false (generatedImage (st w))
             (error_message (caught_of settled)) "")
    (mkState (loading (st w)) (generatedImage (st w))
             (error_message (caught_of settled)) ""
     :: mkState (loading (st w)) (generatedImage (st w))
                (error_message (caught_of settled)) (loadingMessage (st w))
     :: st w :: history w)
    (now w) (timers w) (inflight w)
    (console w ++ [("Error generating infographic:", caught_of settled)])
    (dom w).
Proof.
  destruct settled as [r | e]; cbn; [| reflexivity].
  unfold exec, generateInfographic_resume, try_catch_finally, bind, js_and.
  cbn.
  destruct (truthy (data r)) eqn:Hd; cbn; [| now rewrite Hd].
  destruct (truthy (get_prop (data r) "image_base64")) eqn:Hi; cbn;
    [discriminate | reflexivity].
Qed.

(** The [||] chain of the [catch] block ends in a non-empty literal. *)
Lemma error_message_truthy err : truthy (error_message err) = true.
Proof.
  unfold error_message, js_or.
  destruct (truthy (response_detail err)) eqn:Hd; rewrite ?Hd; cbn.
  - reflexivity.
  - destruct (message err =? "") eqn:Hm; cbn; [reflexivity | now rewrite Hm].
Qed.

Lemma downloadImage_exec w :
  exec downloadImage w =
  if truthy (generatedImage (st w)) then
    let link := mkAnchor (generatedImage (st w)) "visa-wwc-infographic.png" in
    mkWorld (st w) (history w) (now w) (timers w) (inflight w) (console w)
            (dom w ++ [AppendChild link; ClickLink link; RemoveChild link])
  else w.
Proof.
  unfold exec, downloadImage.
  destruct (truthy (generatedImage (st w))); cbn; [| reflexivity].
  rewrite <- !app_assoc. reflexivity.
Qed.

(** ** Which buttons can be clicked *)

Lemma buttons_spec s :
  buttons s =
  (if truthy (generatedImage s) then [] else [generate_button s])
  ++ (if truthy (error s) then [retry_button] else [])
  ++ (if truthy (generatedImage s) && negb (loading s)
      then [download_button; regenerate_button] else []).
Proof.
  unfold buttons, render, when, generate_button.
  destruct (truthy (generatedImage s)), (loading s), (truthy (error s));
    reflexivity.
Qed.

Lemma find_button_cases cls s b :
  find_button cls s = Some b ->
  (b = generate_button s /\ truthy (generatedImage s) = false)
  \/ (b = retry_button /\ truthy (error s) = true)
  \/ ((b = download_button \/ b = regenerate_button)
      /\ truthy (generatedImage s) = true /\ loading s = false).
Proof.
  unfold find_button. rewrite buttons_spec.
  destruct (truthy (generatedImage s)), (truthy (error s)), (loading s);
    cbn -[String.eqb];
    repeat match goal with
           | |- context [String.eqb ?a cls] => destruct (String.eqb a cls)
           end;
    try discriminate; intros [= <-]; auto 6.
Qed.

(** ** The invariant of the event loop *)

Ltac split_inv :=
  match goal with
  | H : page_inv _ |- _ =>
      let Hh := fresh "Hhist" in
      let Hr := fresh "Hrest" in
      let Hw := fresh "Hwait" in
      destruct H as [Hh [Hr | Hw]];
      [ destruct Hr as (Hfl & Hld & Hnb)
      | destruct Hw as ([pending Hfl] & Hld & Himg & Herr) ]
  end.

Lemma begin_inv w :
  Forall never_both (history w) -> at_rest w ->
  page_inv (exec generateInfographic w).
Proof.
  intros Hh (Hfl & Hld & Hnb). rewrite generateInfographic_exec.
  split; cbn.
  - repeat constructor; unfold never_both; cbn;
      auto using andb_false_r.
  - right. unfold waiting; cbn. rewrite Hfl. cbn. eauto.
Qed.

Lemma resume_inv settled w :
  Forall never_both (history w) -> inflight w = [] ->
  generatedImage (st w) = JNull -> error (st w) = JNull ->
  page_inv (exec (generateInfographic_resume settled) w).
Proof.
  intros Hh Hfl Himg Herr.
  assert (Hst : never_both (st w))
    by (unfold never_both; now rewrite Himg).
  destruct (image_of settled) as [v |] eqn:Hv.
  - rewrite (resume_exec_image _ _ _ Hv), Herr.
    split; cbn.
    + repeat constructor; unfold never_both; cbn;
        auto using andb_false_r.
    + left. unfold at_rest, never_both; cbn. auto using andb_false_r.
  - rewrite (resume_exec_caught _ _ Hv), Himg.
    split; cbn.
    + repeat constructor; unfold never_both; cbn; auto.
    + left. unfold at_rest, never_both; cbn. auto.
Qed.

Lemma step_inv ev w w' :
  page_inv w -> step ev w = Some w' -> page_inv w'.
Proof.
  intros Hinv. destruct ev as [cls | i o | | dt]; cbn.
  - destruct (find_button cls (st w)) as [b |] eqn:Hb; [| discriminate].
    apply find_button_cases in Hb.
    destruct Hb as [[-> Hi] | [[-> He] | [[-> | ->] [Hi Hl]]]]; cbn.
    + destruct (loading (st w)) eqn:Hl; [discriminate |].
      intros [= <-]. split_inv; [| congruence].
      apply begin_inv; unfold at_rest; auto.
    + intros [= <-]. split_inv.
      * apply begin_inv; unfold at_rest; auto.
      * rewrite Herr in He. discriminate.
    + intros [= <-]. rewrite downloadImage_exec, Hi.
      destruct Hinv as [Hh Hs]. split; [exact Hh |].
      destruct Hs as [Hr | Hw]; [left | right]; assumption.
    + intros [= <-]. split_inv; [| congruence].
      apply begin_inv; unfold at_rest; auto.
  - destruct (nth_error (inflight w) i) as [r |] eqn:Hn; [| discriminate].
    intros [= <-]. split_inv.
    + rewrite Hfl in Hn. destruct i; discriminate.
    + apply resume_inv; cbn; auto.
      rewrite Hfl in *. destruct i as [| [| j]]; cbn in *; congruence.
  - destruct (pop_next (timers w)) as [[t rest] |]; [| discriminate].
    destruct (due t <=? now w)%N; [| discriminate].
    intros [= <-]. unfold exec, run_timer. cbn.
    split_inv.
    + split; [constructor; auto |]. left. unfold at_rest; cbn. auto.
    + split; [constructor; [unfold never_both; now rewrite Himg | auto] |].
      right. unfold waiting; cbn. eauto.
  - intros [= <-]. exact Hinv.
Qed.

Lemma run_inv evs : forall w w',
  page_inv w -> run evs w = Some w' -> page_inv w'.
Proof.
  induction evs as [| ev evs IH]; cbn; intros w w' Hinv.
  - now intros [= <-].
  - destruct (step ev w) as [w1 |] eqn:Hs; [| discriminate].
    apply IH. eapply step_inv; eauto.
Qed.

Lemma initial_inv : page_inv initial_world.
Proof.
  split; [constructor |]. left. repeat split.
Qed.

Lemma reachable_inv w : reachable w -> page_inv w.
Proof.
  intros [evs Hrun]. eapply run_inv; [apply initial_inv | exact Hrun].
Qed.

Lemma run_app evs1 : forall evs2 w,
  run (evs1 ++ evs2) w =
  match run evs1 w with
  | Some w1 => run evs2 w1
  | None => None
  end.
Proof.
  induction evs1 as [| ev evs1 IH]; cbn; intros evs2 w; [reflexivity |].
  destruct (step ev w); [apply IH | reflexivity].
Qed.

Lemma reachable_run evs w w' :
  reachable w -> run evs w = Some w' -> reachable w'.
Proof.
  intros [evs0 H0] Hrun. exists (evs0 ++ evs).
  now rewrite run_app, H0.
Qed.

(** A settlement finds its request only while the page is waiting, and then
    it is request number 0, the only one. *)
Lemma settle_waiting w i req :
  page_inv w -> nth_error (inflight w) i = Some req ->
  i = 0 /\ inflight w = [req] /\ loading (st w) = true
  /\ generatedImage (st w) = JNull /\ error (st w) = JNull.
Proof.
  intros Hinv Hn. split_inv.
  - rewrite Hfl in Hn. destruct i; discriminate.
  - rewrite Hfl in Hn |- *.
    destruct i as [| [| j]]; cbn in Hn; try discriminate.
    injection Hn as ->. auto.
Qed.

(** ** The claims *)

(** C1.  Every run of [generateInfographic] enters the loading state with the
    image and the error both cleared; and in every state the page ever
    commits, on any run of the event loop (the current state and every
    earlier one, also those between two setter calls of one handler), an
    image and an error are never held together. *)
Theorem generate_clears_and_never_both :
  (forall w,
     let w' := exec generateInfographic w in
     loading (st w') = true
     /\ generatedImage (st w') = JNull /\ error (st w') = JNull)
  /\ (forall w, reachable w ->
       forall s, In s (st w :: history w) ->
       ~ (truthy (generatedImage s) = true /\ truthy (error s) = true)).
Proof.
  split.
  - intros w. rewrite generateInfographic_exec. cbn. auto.
  - intros w Hr s Hin [Hi He].
    assert (Hnb : never_both s).
    { destruct (reachable_inv w Hr) as [Hh Hs].
      destruct Hin as [<- | Hin].
      - destruct Hs as [(_ & _ & Hnb) | (_ & _ & Himg & _)]; [exact Hnb |].
        unfold never_both. now rewrite Himg.
      - rewrite Forall_forall in Hh. now apply Hh. }
    unfold never_both in Hnb. rewrite Hi, He in Hnb. discriminate.
Qed.

(** C2.  Whenever the pending request resolves with a body whose field
    [image_base64] is a non-empty string [X], the page ends up showing the
    result: not loading, no error, the image cell holding exactly [X], and
    the result container rendered with [X] as the image source. *)
Theorem resolved_image_shows_result w i req r X :
  reachable w ->
  nth_error (inflight w) i = Some req ->
  get_prop (data r) "image_base64" = JStr X ->
  X <> "" ->
  exists w',
    step (Settle i (Resolved r)) w = Some w'
    /\ st w' = mkState false (JStr X) JNull ""
    /\ render (st w') =
       [ResultContainer (JStr X) download_button regenerate_button].
Proof.
  intros Hr Hn Hx Hne.
  destruct (settle_waiting w i req (reachable_inv w Hr) Hn)
    as (-> & Hfl & Hld & Himg & Herr).
  assert (Hv : image_of (Resolved r) = Some (JStr X)).
  { cbn. rewrite Hx. destruct (data r); try discriminate.
    cbn. apply String.eqb_neq in Hne. now rewrite Hne. }
  eexists. cbn. rewrite Hfl. cbn. split; [reflexivity |].
  rewrite (resume_exec_image _ _ _ Hv). cbn. rewrite Herr.
  split; [reflexivity |].
  unfold render, when. cbn.
  apply String.eqb_neq in Hne. now rewrite Hne.
Qed.

(** What the page shows once a request has failed with [msg]. *)
Lemma render_error msg :
  truthy msg = true ->
  render (mkState false JNull msg "") =
  [GenerateButton (mkButton "generate-button" onGenerateInfographic false
                            "Generate Infographic");
   ErrorContainer msg retry_button].
Proof.
  intros Hm. unfold render, when, generate_button. cbn. now rewrite Hm.
Qed.

Lemma settle_caught w i req o :
  reachable w ->
  nth_error (inflight w) i = Some req ->
  image_of o = None ->
  exists w',
    step (Settle i o) w = Some w'
    /\ st w' = mkState false JNull (error_message (caught_of o)) "".
Proof.
  intros Hr Hn Hv.
  destruct (settle_waiting w i req (reachable_inv w Hr) Hn)
    as (-> & Hfl & Hld & Himg & Herr).
  eexists. cbn. rewrite Hfl. cbn. split; [reflexivity |].
  rewrite (resume_exec_caught _ _ Hv). cbn. now rewrite Himg.
Qed.

(** C3, as the code has it.  Whenever the pending request is rejected, the
    page ends up not loading, with no image, holding as its error the first
    truthy value in this order: the [detail] field of the error response's
    body; the error's own message; the fixed fallback text.  Whenever the
    value held is a string, what is on screen is the error view with exactly
    that string as its message. *)
Theorem rejected_shows_error_by_priority w i req e :
  reachable w ->
  nth_error (inflight w) i = Some req ->
  exists w',
    step (Settle i (Rejected e)) w = Some w'
    /\ st w' = mkState false JNull (error_message e) ""
    /\ (truthy (response_detail e) = true ->
        error_message e = response_detail e)
    /\ (truthy (response_detail e) = false -> message e <> "" ->
        error_message e = JStr (message e))
    /\ (truthy (response_detail e) = false -> message e = "" ->
        error_message e =
        JStr "Failed to generate infographic. Please try again.")
    /\ (forall m, error_message e = JStr m ->
        mount (st w') =
        Some [GenerateButton (mkButton "generate-button"
                                       onGenerateInfographic false
                                       "Generate Infographic");
              ErrorContainer (JStr m) retry_button]).
Proof.
  intros Hr Hn.
  destruct (settle_caught w i req (Rejected e) Hr Hn eq_refl)
    as (w' & Hs & Hst).
  exists w'. split; [exact Hs |]. split; [exact Hst |].
  unfold error_message at 1 2 3, js_or. repeat split.
  - intros Hd. now rewrite !Hd.
  - intros Hd Hm. rewrite Hd. cbn.
    apply String.eqb_neq in Hm. now rewrite Hm.
  - intros Hd Hm. rewrite Hd, Hm. reflexivity.
  - intros m Hm. rewrite Hst.
    pose proof (error_message_truthy e) as Ht.
    cbn [caught_of]. rewrite Hm in Ht |- *.
    unfold mount, mountable. cbn [error valid_child]. rewrite orb_true_r.
    now rewrite render_error.
Qed.

(** C4.  Whenever the pending request resolves with no body, or with a body
    that has no field [image_base64], the page ends up showing the error view
    with the message "No image data received"; no image is held and the
    result container is not rendered. *)
Theorem resolved_without_image_shows_error w i req r :
  reachable w ->
  nth_error (inflight w) i = Some req ->
  truthy (data r) = false \/ get_prop (data r) "image_base64" = JUndefined ->
  exists w',
    step (Settle i (Resolved r)) w = Some w'
    /\ st w' = mkState false JNull (JStr "No image data received") ""
    /\ render (st w') =
       [GenerateButton (mkButton "generate-button" onGenerateInfographic false
                                 "Generate Infographic");
        ErrorContainer (JStr "No image data received") retry_button].
Proof.
  intros Hr Hn Hmiss.
  assert (Hv : image_of (Resolved r) = None).
  { cbn. destruct Hmiss as [Hd | Hf]; [now rewrite Hd |].
    rewrite Hf. cbn. now rewrite andb_false_r. }
  destruct (settle_caught w i req (Resolved r) Hr Hn Hv) as (w' & Hs & Hst).
  exists w'. split; [exact Hs |]. split; [exact Hst |].
  rewrite Hst. now apply render_error.
Qed.

(** C5.  However the pending request settles (image received, malformed
    response, backend error, transport error), the handler runs to its end
    without an uncaught exception and leaves the loading flag false and the
    progress message empty. *)
Theorem settled_clears_loading_and_message w i req o :
  nth_error (inflight w) i = Some req ->
  exists w',
    step (Settle i o) w = Some w'
    /\ fst (generateInfographic_resume o
              (set_inflight (remove_nth i (inflight w)) w)) = Normal tt
    /\ loading (st w') = false
    /\ loadingMessage (st w') = "".
Proof.
  intros Hn. eexists. cbn. rewrite Hn. split; [reflexivity |].
  destruct (image_of o) as [v |] eqn:Hv.
  - rewrite (resume_exec_image _ _ _ Hv). cbn. split; [| auto].
    destruct o as [r | e]; [| discriminate]. cbn in Hv.
    unfold generateInfographic_resume, try_catch_finally, bind, js_and. cbn.
    destruct (truthy (data r)); [| discriminate].
    destruct (truthy (get_prop (data r) "image_base64")); [| discriminate].
    reflexivity.
  - rewrite (resume_exec_caught _ _ Hv). cbn. split; [| auto].
    destruct o as [r | e]; [| reflexivity]. cbn in Hv.
    unfold generateInfographic_resume, try_catch_finally, bind, js_and. cbn.
    destruct (truthy (data r)) eqn:Hd; cbn; [| now rewrite Hd].
    destruct (truthy (get_prop (data r) "image_base64")); [discriminate |].
    reflexivity.
Qed.

(** Firing takes one timer out of the pending ones and leaves the others. *)
Lemma pop_next_perm ts : forall t rest,
  pop_next ts = Some (t, rest) -> Permutation (t :: rest) ts.
Proof.
  induction ts as [| t0 ts IH]; cbn; intros t rest; [discriminate |].
  destruct (pop_next ts) as [[t' rest'] |].
  - destruct (due t' <? due t0)%N; intros [= <- <-].
    + rewrite perm_swap. constructor. now apply IH.
    + reflexivity.
  - intros [= <- <-]. reflexivity.
Qed.

(** C6.  Every run of [generateInfographic] sets the progress message to the
    "Preparing" text at once and adds exactly three timers, due 2000, 5000
    and 10000 ms after the call, each carrying its progress text.  Pending
    timers are never cancelled: no event other than the firing of a timer
    takes one away (the settling of the request in particular leaves them
    all), and a timer that has come due fires in whatever state the page is
    in and puts its text into the progress message. *)
Theorem generate_schedules_three_updates :
  (forall w,
     let w' := exec generateInfographic w in
     loadingMessage (st w') = "Preparing your infographic..."
     /\ timers w' =
        timers w
        ++ [mkTimer (now w + 2000) "Analyzing data and structure...";
            mkTimer (now w + 5000)
                    "Creating visual design with Visa blue theme...";
            mkTimer (now w + 10000) "Finalizing your infographic..."])
  /\ (forall ev w w',
       step ev w = Some w' -> ev <> Fire ->
       exists more, timers w' = timers w ++ more)
  /\ (forall w t rest,
       pop_next (timers w) = Some (t, rest) -> (due t <= now w)%N ->
       exists w',
         step Fire w = Some w'
         /\ loadingMessage (st w') = timer_msg t
         /\ Permutation (t :: timers w') (timers w)).
Proof.
  split; [| split].
  - intros w. rewrite generateInfographic_exec. cbn. auto.
  - intros ev w w' Hs Hev. destruct ev as [cls | i o | | dt]; cbn in Hs.
    + destruct (find_button cls (st w)) as [b |]; [| discriminate].
      destruct (disabled b); [discriminate |]. injection Hs as <-.
      destruct (onClick b); cbn [run_handler].
      * rewrite generateInfographic_exec. cbn. eauto.
      * rewrite downloadImage_exec. exists [].
        destruct (truthy (generatedImage (st w))); cbn;
          now rewrite app_nil_r.
    + destruct (nth_error (inflight w) i); [| discriminate].
      injection Hs as <-. exists []. rewrite app_nil_r.
      destruct (image_of o) as [v |] eqn:Hv.
      * now rewrite (resume_exec_image _ _ _ Hv).
      * now rewrite (resume_exec_caught _ _ Hv).
    + contradiction.
    + injection Hs as <-. exists []. cbn. now rewrite app_nil_r.
  - intros w t rest Hp Hdue. eexists. cbn. rewrite Hp.
    apply N.leb_le in Hdue. rewrite Hdue.
    split; [reflexivity |]. cbn. split; [reflexivity |].
    now apply pop_next_perm.
Qed.

(** C7.  The retry button of the error view and the regenerate button of the
    result view carry the very handler of the generate button; a click on
    any of the three, where it is rendered and enabled, runs
    [generateInfographic], which enters the loading state and posts the same
    request: no body, the one fixed URL. *)
Theorem retry_and_regenerate_run_generate w :
  onClick retry_button = onClick (generate_button (st w))
  /\ onClick regenerate_button = onClick (generate_button (st w))
  /\ (truthy (generatedImage (st w)) = false -> loading (st w) = false ->
      step (Click "generate-button") w = Some (exec generateInfographic w))
  /\ (truthy (error (st w)) = true ->
      step (Click "retry-button") w = Some (exec generateInfographic w))
  /\ (truthy (generatedImage (st w)) = true -> loading (st w) = false ->
      step (Click "regenerate-button") w = Some (exec generateInfographic w))
  /\ loading (st (exec generateInfographic w)) = true
  /\ inflight (exec generateInfographic w) =
     inflight w ++ [mkRequest "POST" (API ++ "/generate-infographic") None].
Proof.
  split; [reflexivity |]. split; [reflexivity |].
  split; [| split; [| split]].
  - intros Hi Hl. unfold step, find_button. rewrite buttons_spec, Hi.
    cbn. now rewrite Hl.
  - intros He. unfold step, find_button. rewrite buttons_spec, He.
    destruct (truthy (generatedImage (st w))); reflexivity.
  - intros Hi Hl. unfold step, find_button. rewrite buttons_spec, Hi, Hl.
    destruct (truthy (error (st w))); reflexivity.
  - rewrite generateInfographic_exec. cbn. auto.
Qed.

(** C8.  [downloadImage] never throws, never touches the component state and
    never starts a request.  With no image held it changes nothing at all
    (and the download button is not rendered, so it cannot be clicked);
    with an image held its whole effect is to append, click and remove one
    link whose target is exactly the held image and whose file name is
    visa-wwc-infographic.png. *)
Theorem download_saves_held_image w :
  fst (downloadImage w) = Normal tt
  /\ st (exec downloadImage w) = st w
  /\ inflight (exec downloadImage w) = inflight w
  /\ (truthy (generatedImage (st w)) = false ->
      exec downloadImage w = w
      /\ step (Click "download-button") w = None)
  /\ (truthy (generatedImage (st w)) = true ->
      let link :=
        mkAnchor (generatedImage (st w)) "visa-wwc-infographic.png" in
      exec downloadImage w =
      mkWorld (st w) (history w) (now w) (timers w) (inflight w) (console w)
              (dom w ++ [AppendChild link; ClickLink link; RemoveChild link])).
Proof.
  rewrite downloadImage_exec. unfold downloadImage.
  destruct (truthy (generatedImage (st w))) eqn:Hi; cbn.
  - repeat split; discriminate.
  - repeat split; try discriminate.
    unfold find_button. rewrite buttons_spec, Hi. cbn.
    destruct (truthy (error (st w))); reflexivity.
Qed.

(** C9, as the code has it.  While the loading flag is true the page renders
    the generate button, disabled and labelled "Generating...", next to the
    loading container and nothing else; no button can be clicked, so the
    user cannot start a second request while one is pending. *)
Theorem loading_disables_every_button w :
  reachable w ->
  loading (st w) = true ->
  render (st w) =
  [GenerateButton (mkButton "generate-button" onGenerateInfographic true
                            "Generating...");
   LoadingContainer (loadingMessage (st w))]
  /\ forall cls, step (Click cls) w = None.
Proof.
  intros Hr Hl.
  destruct (reachable_inv w Hr) as [_ [(_ & Hl' & _) | (_ & _ & Hi & He)]];
    [congruence |].
  split.
  - unfold render, when, generate_button. now rewrite Hi, He, Hl.
  - intros cls. unfold step, find_button. rewrite buttons_spec, Hi, He, Hl.
    cbn -[String.eqb]. destruct (String.eqb _ cls); cbn; [| reflexivity].
    now rewrite Hl.
Qed.

(** C10.  Take any run that starts with a click on the regenerate button
    (which only the result view offers: an image is held then).  If a
    request of that run later fails, by rejection or by a response without
    image, the page holds no image afterwards: it shows the error view, and
    the image held before the click has not come back. *)
Theorem failed_regenerate_holds_no_image w evs w1 i o w2 :
  reachable w ->
  run (Click "regenerate-button" :: evs) w = Some w1 ->
  image_of o = None ->
  step (Settle i o) w1 = Some w2 ->
  truthy (generatedImage (st w)) = true
  /\ generatedImage (st w2) = JNull
  /\ truthy (error (st w2)) = true
  /\ render (st w2) =
     [GenerateButton (mkButton "generate-button" onGenerateInfographic false
                               "Generate Infographic");
      ErrorContainer (error (st w2)) retry_button].
Proof.
  intros Hr Hrun Hv Hs. split.
  - cbn in Hrun.
    destruct (find_button "regenerate-button" (st w)) as [b |] eqn:Hb;
      [| discriminate].
    unfold find_button in Hb. rewrite buttons_spec in Hb.
    destruct (truthy (generatedImage (st w))); [reflexivity |].
    destruct (truthy (error (st w))); discriminate.
  - assert (Hr1 : reachable w1) by (eapply reachable_run; eauto).
    assert (Hn : exists req, nth_error (inflight w1) i = Some req).
    { cbn in Hs. destruct (nth_error (inflight w1) i); [eauto | discriminate]. }
    destruct Hn as [req Hn].
    destruct (settle_caught w1 i req o Hr1 Hn Hv) as (w' & Hs' & Hst).
    rewrite Hs in Hs'. injection Hs' as <-. rewrite Hst. cbn.
    split; [reflexivity |]. split; [apply error_message_truthy |].
    apply render_error, error_message_truthy.
Qed.

End Properties.

(** ** The claims on concrete runs *)

Lemma pending_reachable : reachable (env := demo_env) pending_world.
Proof. exists [Click "generate-button"]. reflexivity. Defined.

Lemma result_reachable : reachable (env := demo_env) result_world.
Proof. exists demo_events. reflexivity. Defined.

(** What the buttons rule out.  Were the handler started a second time
    while its first request is pending (no [step] does that: the generate
    button is disabled then and the other two are not rendered), one run
    could deliver an image and the other an error. *)
Example overlapping_runs_would_hold_both :
  let w :=
    exec (generateInfographic_resume (Rejected network_error))
      (exec (generateInfographic_resume (Resolved image_response))
         (set_inflight []
            (exec (generateInfographic (env := demo_env)) pending_world))) in
  generatedImage (st w) = JStr demo_image
  /\ error (st w) = JStr "Network Error".
Proof. split; reflexivity. Qed.

Example truthy_values :
  map truthy [JUndefined; JNull; JBool false; JNum 0; JNum (-0); JNum nan;
              JStr ""; JNum 1; JStr "0"; JArr []; JObj []]
  = [false; false; false; false; false; false; false; true; true; true; true].
Proof. reflexivity. Qed.

Lemma generate_clears_and_never_both_witness :
  reachable (env := demo_env) result_world
  /\ forall s, In s (st result_world :: history result_world) ->
     ~ (truthy (generatedImage s) = true /\ truthy (error s) = true).
Proof.
  split; [exact result_reachable |].
  exact (proj2 (generate_clears_and_never_both (env := demo_env))
               result_world result_reachable).
Defined.

Lemma resolved_image_shows_result_witness :
  nth_error (inflight pending_world) 0 = Some demo_request
  /\ get_prop (data image_response) "image_base64" = JStr demo_image
  /\ exists w',
       step (env := demo_env) (Settle 0 (Resolved image_response)) pending_world
       = Some w'
       /\ st w' = mkState false (JStr demo_image) JNull ""
       /\ render (st w') =
          [ResultContainer (JStr demo_image) download_button
                           regenerate_button].
Proof.
  split; [reflexivity |]. split; [reflexivity |].
  apply (resolved_image_shows_result (env := demo_env) pending_world 0 demo_request
           image_response demo_image);
    [exact pending_reachable | reflexivity | reflexivity | discriminate].
Defined.

(** The claim C3 as it is worded fails on an error response whose [detail]
    field is there but empty: the page shows the error's own message, not
    the detail. *)
Lemma empty_detail_not_displayed :
  response_detail empty_detail_error = JStr ""
  /\ exists w',
       step (env := demo_env) (Settle 0 (Rejected empty_detail_error)) pending_world
       = Some w'
       /\ error (st w') = JStr "Request failed with status code 500"
       /\ error (st w') <> response_detail empty_detail_error.
Proof.
  split; [reflexivity |]. eexists. split; [reflexivity |].
  split; [reflexivity | discriminate].
Qed.

(** The spec's example: [{ "detail": "quota exceeded" }] is displayed as is. *)
Lemma rejected_shows_error_by_priority_witness :
  nth_error (inflight pending_world) 0 = Some demo_request
  /\ truthy (response_detail quota_error) = true
  /\ exists w',
       step (env := demo_env) (Settle 0 (Rejected quota_error)) pending_world
       = Some w'
       /\ error (st w') = JStr "quota exceeded"
       /\ mount (st w') =
          Some [GenerateButton (mkButton "generate-button"
                                         onGenerateInfographic false
                                         "Generate Infographic");
                ErrorContainer (JStr "quota exceeded") retry_button].
Proof.
  split; [reflexivity |]. split; [reflexivity |].
  destruct (rejected_shows_error_by_priority (env := demo_env) pending_world
              0 demo_request quota_error pending_reachable eq_refl)
    as (w' & Hs & Hst & Hdetail & _ & _ & Hshown).
  exists w'. split; [exact Hs |].
  split; [rewrite Hst; cbn [error]; exact (Hdetail eq_refl) |].
  exact (Hshown "quota exceeded" eq_refl).
Defined.

Lemma resolved_without_image_shows_error_witness :
  nth_error (inflight pending_world) 0 = Some demo_request
  /\ get_prop (data empty_response) "image_base64" = JUndefined
  /\ exists w',
       step (env := demo_env) (Settle 0 (Resolved empty_response)) pending_world
       = Some w'
       /\ st w' = mkState false JNull (JStr "No image data received") ""
       /\ render (st w') =
          [GenerateButton (mkButton "generate-button" onGenerateInfographic
                                    false "Generate Infographic");
           ErrorContainer (JStr "No image data received") retry_button].
Proof.
  split; [reflexivity |]. split; [reflexivity |].
  apply (resolved_without_image_shows_error (env := demo_env) pending_world 0
           demo_request empty_response);
    [exact pending_reachable | reflexivity | right; reflexivity].
Defined.

Lemma settled_clears_loading_and_message_witness :
  nth_error (inflight pending_world) 0 = Some demo_request
  /\ exists w',
       step (env := demo_env) (Settle 0 (Rejected network_error)) pending_world
       = Some w'
       /\ fst (generateInfographic_resume (Rejected network_error)
                 (set_inflight (remove_nth 0 (inflight pending_world))
                               pending_world)) = Normal tt
       /\ loading (st w') = false
       /\ loadingMessage (st w') = "".
Proof.
  split; [reflexivity |].
  apply (settled_clears_loading_and_message (env := demo_env) pending_world 0
           demo_request (Rejected network_error)).
  reflexivity.
Defined.

(** The settling of the request leaves the three timers pending, and the
    first of them still fires after the image has arrived: the progress
    text comes back although the page is no longer loading. *)
Lemma generate_schedules_three_updates_witness :
  (exists more,
     timers (exec (generateInfographic_resume (Resolved image_response))
                  (set_inflight [] pending_world))
     = timers pending_world ++ more)
  /\ loading (st late_world) = false
  /\ exists w',
       step (env := demo_env) Fire late_world = Some w'
       /\ loadingMessage (st w') = "Analyzing data and structure..."
       /\ Permutation
            (mkTimer 2000 "Analyzing data and structure..." :: timers w')
            (timers late_world).
Proof.
  split; [| split; [reflexivity |]].
  - apply (proj1 (proj2 (generate_schedules_three_updates (env := demo_env)))
             (Settle 0 (Resolved image_response)) pending_world);
      [reflexivity | discriminate].
  - apply (proj2 (proj2 (generate_schedules_three_updates (env := demo_env)))
             late_world (mkTimer 2000 "Analyzing data and structure...")
             [mkTimer 5000 "Creating visual design with Visa blue theme...";
              mkTimer 10000 "Finalizing your infographic..."]);
      [reflexivity | vm_compute; discriminate].
Defined.

Lemma retry_and_regenerate_run_generate_witness :
  truthy (error (st failed_world)) = true
  /\ step (env := demo_env) (Click "retry-button") failed_world
     = Some (exec (generateInfographic (env := demo_env)) failed_world)
  /\ truthy (generatedImage (st result_world)) = true
  /\ step (env := demo_env) (Click "regenerate-button") result_world
     = Some (exec (generateInfographic (env := demo_env)) result_world).
Proof.
  pose proof (retry_and_regenerate_run_generate (env := demo_env) failed_world)
    as (_ & _ & _ & Hretry & _).
  pose proof (retry_and_regenerate_run_generate (env := demo_env) result_world)
    as (_ & _ & _ & _ & Hregen & _).
  split; [reflexivity |]. split; [exact (Hretry eq_refl) |].
  split; [reflexivity |]. exact (Hregen eq_refl eq_refl).
Defined.

Lemma download_saves_held_image_witness :
  (truthy (generatedImage (st failed_world)) = false
   /\ exec downloadImage failed_world = failed_world)
  /\ truthy (generatedImage (st result_world)) = true
  /\ dom (exec downloadImage result_world) =
     [AppendChild (mkAnchor (JStr demo_image) "visa-wwc-infographic.png");
      ClickLink (mkAnchor (JStr demo_image) "visa-wwc-infographic.png");
      RemoveChild (mkAnchor (JStr demo_image) "visa-wwc-infographic.png")].
Proof.
  pose proof (download_saves_held_image (env := demo_env) failed_world)
    as (_ & _ & _ & Hnone & _).
  pose proof (download_saves_held_image (env := demo_env) result_world)
    as (_ & _ & _ & _ & Hsome).
  split; [split; [reflexivity | exact (proj1 (Hnone eq_refl))] |].
  split; [reflexivity |].
  rewrite (Hsome eq_refl). reflexivity.
Defined.

(** The claim C9 as it is worded fails right after the first click: the
    page is loading and the generate button is rendered. *)
Lemma generate_button_rendered_while_loading :
  ~ (forall w, reachable (env := demo_env) w -> loading (st w) = true ->
     forall b, ~ In (GenerateButton b) (render (st w))).
Proof.
  intros H.
  apply (H pending_world pending_reachable eq_refl
           (mkButton "generate-button" onGenerateInfographic true
                     "Generating...")).
  left. reflexivity.
Qed.

Lemma loading_disables_every_button_witness :
  loading (st pending_world) = true
  /\ render (st pending_world) =
     [GenerateButton (mkButton "generate-button" onGenerateInfographic true
                               "Generating...");
      LoadingContainer (loadingMessage (st pending_world))]
  /\ forall cls, step (env := demo_env) (Click cls) pending_world = None.
Proof.
  split; [reflexivity |].
  exact (loading_disables_every_button (env := demo_env) pending_world
           pending_reachable eq_refl).
Defined.

Lemma failed_regenerate_holds_no_image_witness :
  run (env := demo_env) [Click "regenerate-button"; Tick 100] result_world
  = Some regenerating_world
  /\ step (env := demo_env) (Settle 0 (Rejected network_error)) regenerating_world
     = Some regenerate_failed_world
  /\ generatedImage (st result_world) = JStr demo_image
  /\ generatedImage (st regenerate_failed_world) = JNull.
Proof.
  pose proof (failed_regenerate_holds_no_image (env := demo_env) result_world
                [Tick 100] regenerating_world 0 (Rejected network_error)
                regenerate_failed_world result_reachable eq_refl eq_refl
                eq_refl) as (_ & Hnone & _).
  split; [reflexivity |]. split; [reflexivity |].
  split; [reflexivity | exact Hnone].
Defined.

(** ** Further properties of the page *)

Section Further.

Context {env : Env}.

Lemma find_button_class cls s b :
  find_button cls s = Some b -> className b = cls.
Proof.
  unfold find_button. intros H. apply find_some in H as [_ H].
  now apply String.eqb_eq.
Qed.

(** Every turn of the event loop is one of five. *)
Lemma step_cases ev w w' :
  step ev w = Some w' ->
  (exists cls, ev = Click cls /\ In cls generate_classes
               /\ w' = exec generateInfographic w)
  \/ (ev = Click "download-button"
      /\ truthy (generatedImage (st w)) = true
      /\ w' = exec downloadImage w)
  \/ (exists i o req, ev = Settle i o
        /\ nth_error (inflight w) i = Some req
        /\ w' = exec (generateInfographic_resume o)
                     (set_inflight (remove_nth i (inflight w)) w))
  \/ (exists t rest, ev = Fire
        /\ pop_next (timers w) = Some (t, rest) /\ (due t <= now w)%N
        /\ w' = exec (run_timer t) (set_timers rest w))
  \/ (exists dt, ev = Tick dt /\ w' = set_now (now w + dt) w).
Proof.
  destruct ev as [cls | i o | | dt]; cbn.
  - destruct (find_button cls (st w)) as [b |] eqn:Hb; [| discriminate].
    pose proof (find_button_class _ _ _ Hb) as Hc.
    apply find_button_cases in Hb.
    destruct Hb as [[-> Hi] | [[-> He] | [[-> | ->] [Hi Hl]]]];
      cbn in Hc; subst cls; cbn.
    + destruct (loading (st w)); [discriminate |]. intros [= <-].
      left. exists "generate-button". cbn. auto 7.
    + intros [= <-]. left. exists "retry-button". cbn. auto 7.
    + intros [= <-]. right. left. auto.
    + intros [= <-]. left. exists "regenerate-button". cbn. auto 7.
  - destruct (nth_error (inflight w) i) as [req |] eqn:Hn; [| discriminate].
    intros [= <-]. right. right. left. exists i, o, req. auto.
  - destruct (pop_next (timers w)) as [[t rest] |]; [| discriminate].
    destruct (due t <=? now w)%N eqn:Hd; [| discriminate].
    intros [= <-]. right. right. right. left. exists t, rest.
    apply N.leb_le in Hd. auto.
  - intros [= <-]. right. right. right. right. eauto.
Qed.

(** A property of worlds that every turn keeps holds along every run. *)
Lemma run_invariant (P : World -> Prop) :
  (forall ev w w', P w -> step ev w = Some w' -> P w') ->
  forall evs w w', P w -> run evs w = Some w' -> P w'.
Proof.
  intros Hstep evs. induction evs as [| ev evs IH]; cbn; intros w w' HP.
  - now intros [= <-].
  - destruct (step ev w) as [w1 |] eqn:Hs; [| discriminate].
    apply IH. eapply Hstep; eauto.
Qed.

Lemma run_timer_exec t w :
  exec (run_timer t) w =
  mkWorld (mkState (loading (st w)) (generatedImage (st w)) (error (st w))
                   (timer_msg t))
          (st w :: history w) (now w) (timers w) (inflight w) (console w)
          (dom w).
Proof. reflexivity. Qed.

Lemma image_of_truthy o v : image_of o = Some v -> truthy v = true.
Proof.
  destruct o as [r | e]; cbn; [| discriminate].
  destruct (truthy (data r)); cbn; [| discriminate].
  destruct (truthy (get_prop (data r) "image_base64")) eqn:Hi; [| discriminate].
  now intros [= <-].
Qed.







Lemma remove_nth_Forall {A} (P : A -> Prop) i : forall l,
  Forall P l -> Forall P (remove_nth i l).
Proof.
  induction i as [| i IH]; intros [| x l] H; cbn; auto;
    inversion H; subst; auto.
Qed.

Lemma inflight_fixed w :
  reachable w ->
  Forall (eq (mkRequest "POST" (API ++ "/generate-infographic") None))
         (inflight w).
Proof.
  intros [evs Hrun]. revert Hrun.
  apply (run_invariant
           (fun w => Forall (eq (mkRequest "POST"
                                   (API ++ "/generate-infographic") None))
                            (inflight w))); [| constructor].
  clear. intros ev w w' HP Hs.
  destruct (step_cases ev w w' Hs)
    as [(cls & _ & _ & ->) | [(_ & _ & ->) | [(i & o & req & _ & _ & ->)
       | [(t & rest & _ & _ & _ & ->) | (dt & _ & ->)]]]].
  - rewrite generateInfographic_exec. cbn.
    apply Forall_app. split; [exact HP | repeat constructor].
  - rewrite downloadImage_exec.
    destruct (truthy (generatedImage (st w))); exact HP.
  - assert (Hrem : Forall (eq (mkRequest "POST"
                                 (API ++ "/generate-infographic") None))
                          (remove_nth i (inflight w)))
      by now apply remove_nth_Forall.
    destruct (image_of o) as [v |] eqn:Hv.
    + now rewrite (resume_exec_image _ _ _ Hv).
    + now rewrite (resume_exec_caught _ _ Hv).
  - exact HP.
  - exact HP.
Qed.

(** X2.  The page never has two requests under way: between the turns of the
    event loop either nothing is pending and the loading flag is false, or
    exactly one request is pending, the loading flag is true, and the
    request is the POST to [API/generate-infographic] without a body. *)
Theorem one_request_at_a_time w :
  reachable w ->
  (inflight w = [] /\ loading (st w) = false)
  \/ (inflight w = [mkRequest "POST" (API ++ "/generate-infographic") None]
      /\ loading (st w) = true).
Proof.
  intros Hr. pose proof (inflight_fixed w Hr) as Hfix.
  destruct (reachable_inv w Hr)
    as [_ [(Hfl & Hl & _) | ([req Hfl] & Hl & _)]]; [auto |].
  right. rewrite Hfl in Hfix |- *. inversion Hfix; subst. auto.
Qed.

(** X3.  What a resolved request leaves behind is decided by truthiness
    alone.  If the body is truthy and its [image_base64] is truthy, of
    whatever JSON type, that value becomes the image as it is.  In every
    other case (no body, no such field, or a field that is there but falsy:
    the empty string, 0, false, null) the page shows the error
    "No image data received".  Nothing of the state before the request
    survives. *)
Theorem resolved_decided_by_truthiness w i req r :
  reachable w ->
  nth_error (inflight w) i = Some req ->
  exists w',
    step (Settle i (Resolved r)) w = Some w'
    /\ st w' =
       if truthy (data r) && truthy (get_prop (data r) "image_base64")
       then mkState false (get_prop (data r) "image_base64") JNull ""
       else mkState false JNull (JStr "No image data received") "".
Proof.
  intros Hr Hn.
  destruct (settle_waiting w i req (reachable_inv w Hr) Hn)
    as (-> & Hfl & Hld & Himg & Herr).
  eexists. cbn. rewrite Hfl. cbn. split; [reflexivity |].
  destruct (image_of (Resolved r)) as [v |] eqn:Hv.
  - rewrite (resume_exec_image _ _ _ Hv). cbn in Hv |- *.
    destruct (truthy (data r) && truthy (get_prop (data r) "image_base64"));
      [| discriminate].
    injection Hv as <-. now rewrite Herr.
  - rewrite (resume_exec_caught _ _ Hv). cbn in Hv |- *.
    destruct (truthy (data r) && truthy (get_prop (data r) "image_base64"));
      [discriminate |].
    now rewrite Himg.
Qed.

(** X4.  In every state the page ever commits, the error cell is null or
    truthy and so is the image cell: the tests [error && ...] and
    [generatedImage && ...] of the JSX never meet a falsy value other than
    null (React would print a 0 that such a test lets through). *)
Theorem cells_null_or_truthy w :
  reachable w ->
  forall s, In s (st w :: history w) ->
  null_or_truthy (error s) /\ null_or_truthy (generatedImage s).
Proof.
  intros [evs Hrun]. apply Forall_forall. revert Hrun.
  apply (run_invariant
           (fun w => Forall (fun s => null_or_truthy (error s)
                                      /\ null_or_truthy (generatedImage s))
                            (st w :: history w)));
    [| repeat constructor; now left].
  clear. intros ev w w' HP Hs.
  assert (Hst : null_or_truthy (error (st w))
                /\ null_or_truthy (generatedImage (st w)))
    by now inversion HP.
  destruct Hst as [He Hi].
  destruct (step_cases ev w w' Hs)
    as [(cls & _ & _ & ->) | [(_ & _ & ->) | [(i & o & req & _ & _ & ->)
       | [(t & rest & _ & _ & _ & ->) | (dt & _ & ->)]]]].
  - rewrite generateInfographic_exec. cbn.
    repeat (constructor; [cbn; split; auto; now left |]). now inversion HP.
  - rewrite downloadImage_exec.
    destruct (truthy (generatedImage (st w))); exact HP.
  - destruct (image_of o) as [v |] eqn:Hv.
    + rewrite (resume_exec_image _ _ _ Hv). cbn.
      apply image_of_truthy in Hv.
      repeat (constructor; [cbn; split; auto; now right |]). now inversion HP.
    + rewrite (resume_exec_caught _ _ Hv). cbn.
      pose proof (error_message_truthy (caught_of o)) as Hm.
      repeat (constructor; [cbn; split; auto; now right |]). now inversion HP.
  - rewrite run_timer_exec. cbn. constructor; [cbn; auto | exact HP].
  - exact HP.
Qed.

(** X5.  Only a click starts a request, and each click on the generate,
    retry or regenerate button starts exactly one.  A settlement takes its
    request off the pending ones and never puts one back (no automatic
    retry); a click on the download button, a timer and the passing of time
    leave the pending requests alone. *)
Theorem only_clicks_start_requests ev w w' :
  step ev w = Some w' ->
  if is_generate_click ev
  then inflight w' =
       inflight w ++ [mkRequest "POST" (API ++ "/generate-infographic") None]
  else match ev with
       | Settle i _ => inflight w' = remove_nth i (inflight w)
       | _ => inflight w' = inflight w
       end.
Proof.
  intros Hs.
  destruct (step_cases ev w w' Hs)
    as [(cls & -> & Hc & ->) | [(-> & _ & ->) | [(i & o & req & -> & _ & ->)
       | [(t & rest & -> & _ & _ & ->) | (dt & -> & ->)]]]].
  - assert (Hg : is_generate_click (Click cls) = true).
    { cbn in Hc. destruct Hc as [<- | [<- | [<- | []]]]; reflexivity. }
    rewrite Hg, generateInfographic_exec. reflexivity.
  - change (is_generate_click (Click "download-button")) with false.
    rewrite downloadImage_exec.
    destruct (truthy (generatedImage (st w))); reflexivity.
  - cbn [is_generate_click].
    destruct (image_of o) as [v |] eqn:Hv.
    + now rewrite (resume_exec_image _ _ _ Hv).
    + now rewrite (resume_exec_caught _ _ Hv).
  - reflexivity.
  - reflexivity.
Qed.

(** X6.  The progress timers are cosmetic.  A timer that fires changes the
    progress message and nothing else: not the loading flag, the image or
    the error, and it starts no request, logs nothing and touches no
    document node.  When the page is not loading, the message is not on
    screen, so a timer that fires after the request has settled changes
    nothing the user sees. *)
Theorem timers_are_cosmetic w w' :
  step Fire w = Some w' ->
  loading (st w') = loading (st w)
  /\ generatedImage (st w') = generatedImage (st w)
  /\ error (st w') = error (st w)
  /\ inflight w' = inflight w
  /\ console w' = console w
  /\ dom w' = dom w
  /\ (loading (st w) = false -> render (st w') = render (st w)).
Proof.
  intros Hs.
  destruct (step_cases Fire w w' Hs)
    as [(cls & [=] & _) | [([=] & _) | [(i & o & req & [=] & _)
       | [(t & rest & _ & _ & _ & ->) | (dt & [=] & _)]]]].
  rewrite run_timer_exec. cbn. repeat split.
  intros Hl. unfold render, when, generate_button. cbn. now rewrite Hl.
Qed.



Lemma append_assoc (a b c : string) : ((a ++ b) ++ c = a ++ (b ++ c))%string.
Proof.
  induction a as [| ch a IH]; cbn; [reflexivity | now rewrite IH].
Qed.

(** X8.  The address of the request is fixed when the bundle is built: the
    configured backend URL followed by /api/generate-infographic.  With the
    variable unset the template prints the word undefined, and the request
    goes to the relative address undefined/api/generate-infographic. *)
Theorem request_address w :
  inflight (exec generateInfographic w) =
  inflight w
  ++ [mkRequest "POST"
        match BACKEND_URL with
        | Some u => u ++ "/api/generate-infographic"
        | None => "undefined/api/generate-infographic"
        end
        None].
Proof.
  rewrite generateInfographic_exec. cbn [inflight]. unfold API.
  destruct BACKEND_URL as [u |]; [| reflexivity].
  now rewrite append_assoc.
Qed.

(** X9.  Every failed request is logged once, and nothing else is: a
    settlement that ends in the error view appends one [console.error]
    entry, labelled "Error generating infographic:" and carrying the
    rejection value, or the error "No image data received" for a response
    without image; a settlement that delivers the image, a click, a timer and
    the passing of time append nothing. *)
Theorem failures_are_logged ev w w' :
  step ev w = Some w' ->
  console w' =
  console w
  ++ match ev with
     | Settle _ (Rejected e) => [("Error generating infographic:", e)]
     | Settle _ (Resolved r) =>
         if truthy (data r) && truthy (get_prop (data r) "image_base64")
         then []
         else [("Error generating infographic:",
                Error "No image data received")]
     | _ => []
     end.
Proof.
  intros Hs.
  destruct (step_cases ev w w' Hs)
    as [(cls & -> & Hc & ->) | [(-> & _ & ->) | [(i & o & req & -> & _ & ->)
       | [(t & rest & -> & _ & _ & ->) | (dt & -> & ->)]]]].
  - rewrite generateInfographic_exec. cbn. now rewrite app_nil_r.
  - rewrite downloadImage_exec.
    destruct (truthy (generatedImage (st w))); cbn; now rewrite app_nil_r.
  - destruct (image_of o) as [v |] eqn:Hv.
    + rewrite (resume_exec_image _ _ _ Hv). cbn [console set_inflight].
      destruct o as [r | e]; [| discriminate]. cbn in Hv.
      destruct (truthy (data r) && truthy (get_prop (data r) "image_base64"));
        [now rewrite app_nil_r | discriminate].
    + rewrite (resume_exec_caught _ _ Hv). cbn [console set_inflight].
      destruct o as [r | e]; [| reflexivity]. cbn in Hv |- *.
      destruct (truthy (data r) && truthy (get_prop (data r) "image_base64"));
        [discriminate | reflexivity].
  - rewrite run_timer_exec. cbn. now rewrite app_nil_r.
  - cbn. now rewrite app_nil_r.
Qed.

(** X10.  The page leaves the document as it found it and saves only images
    it holds: all it ever does to the document is a sequence of
    append-click-remove rounds, one per download, each on one link whose
    file name is visa-wwc-infographic.png and whose target is truthy. *)
Theorem document_left_clean w :
  reachable w ->
  exists links,
    dom w = flat_map save_events links
    /\ Forall (fun a => download a = "visa-wwc-infographic.png"
                        /\ truthy (href a) = true) links.
Proof.
  intros [evs Hrun]. revert Hrun.
  apply (run_invariant
           (fun w => exists links,
                dom w = flat_map save_events links
                /\ Forall (fun a => download a = "visa-wwc-infographic.png"
                                    /\ truthy (href a) = true) links));
    [| exists []; split; [reflexivity | constructor]].
  clear. intros ev w w' (links & Hd & Hl) Hs.
  destruct (step_cases ev w w' Hs)
    as [(cls & _ & _ & ->) | [(_ & Hi & ->) | [(i & o & req & _ & _ & ->)
       | [(t & rest & _ & _ & _ & ->) | (dt & _ & ->)]]]].
  - rewrite generateInfographic_exec. cbn. eauto.
  - rewrite downloadImage_exec, Hi. cbn.
    exists (links ++ [mkAnchor (generatedImage (st w))
                               "visa-wwc-infographic.png"]).
    split.
    + rewrite flat_map_app, Hd. reflexivity.
    + apply Forall_app. split; [exact Hl |].
      constructor; [cbn; auto | constructor].
  - destruct (image_of o) as [v |] eqn:Hv.
    + rewrite (resume_exec_image _ _ _ Hv). cbn. eauto.
    + rewrite (resume_exec_caught _ _ Hv). cbn. eauto.
  - rewrite run_timer_exec. cbn. eauto.
  - cbn. eauto.
Qed.

Lemma step_timer_count ev w w' :
  step ev w = Some w' ->
  List.length (timers w') + (if is_fire ev then 1 else 0) =
  List.length (timers w) + (if is_generate_click ev then 3 else 0).
Proof.
  intros Hs.
  destruct (step_cases ev w w' Hs)
    as [(cls & -> & Hc & ->) | [(-> & _ & ->) | [(i & o & req & -> & _ & ->)
       | [(t & rest & -> & Hp & _ & ->) | (dt & -> & ->)]]]].
  - assert (Hg : is_generate_click (Click cls) = true).
    { cbn in Hc. destruct Hc as [<- | [<- | [<- | []]]]; reflexivity. }
    rewrite Hg, generateInfographic_exec. cbn [timers is_fire].
    rewrite length_app. cbn. lia.
  - change (is_generate_click (Click "download-button")) with false.
    rewrite downloadImage_exec.
    destruct (truthy (generatedImage (st w))); cbn; lia.
  - cbn [is_generate_click is_fire].
    destruct (image_of o) as [v |] eqn:Hv.
    + rewrite (resume_exec_image _ _ _ Hv). cbn. lia.
    + rewrite (resume_exec_caught _ _ Hv). cbn. lia.
  - rewrite run_timer_exec. cbn.
    apply pop_next_perm, Permutation_length in Hp. cbn in Hp. lia.
  - cbn. lia.
Qed.

(** X11.  No progress timer is ever dropped.  Along any run, the timers
    still pending plus the timers that have fired are the timers pending at
    the start plus three for each click that ran [generateInfographic]:
    timers of finished requests stay pending until they fire, and pile up
    when the user generates again. *)
Theorem timers_are_never_dropped evs : forall w w',
  run evs w = Some w' ->
  List.length (timers w') + List.length (filter is_fire evs) =
  List.length (timers w) + 3 * List.length (filter is_generate_click evs).
Proof.
  induction evs as [| ev evs IH]; cbn [run]; intros w w'.
  - intros [= <-]. cbn. lia.
  - destruct (step ev w) as [w1 |] eqn:Hs; [| discriminate].
    intros Hrun. specialize (IH _ _ Hrun).
    apply step_timer_count in Hs. cbn [filter].
    destruct (is_fire ev), (is_generate_click ev); cbn [List.length]; lia.
Qed.

(** X12.  While the page is loading, the caption next to the spinner is one
    of the four progress texts, never empty and never anything else. *)
Theorem spinner_caption_is_a_progress_text w :
  reachable w ->
  loading (st w) = true ->
  In (loadingMessage (st w)) progress_texts.
Proof.
  intros [evs Hrun].
  assert (Hinv : Forall (fun t => In (timer_msg t) timer_texts) (timers w)
                 /\ (loading (st w) = true ->
                     In (loadingMessage (st w)) progress_texts));
    [| tauto].
  revert Hrun.
  apply (run_invariant
           (fun w => Forall (fun t => In (timer_msg t) timer_texts) (timers w)
                     /\ (loading (st w) = true ->
                         In (loadingMessage (st w)) progress_texts)));
    [| split; [constructor | discriminate]].
  clear. intros ev w w' [Ht Hm] Hs.
  destruct (step_cases ev w w' Hs)
    as [(cls & _ & _ & ->) | [(_ & _ & ->) | [(i & o & req & _ & _ & ->)
       | [(t & rest & _ & Hp & _ & ->) | (dt & _ & ->)]]]].
  - rewrite generateInfographic_exec. cbn. split.
    + apply Forall_app. split; [exact Ht |].
      repeat (apply Forall_cons; [cbn; auto 6 |]). apply Forall_nil.
    + auto.
  - rewrite downloadImage_exec.
    destruct (truthy (generatedImage (st w))); cbn; auto.
  - destruct (image_of o) as [v |] eqn:Hv.
    + rewrite (resume_exec_image _ _ _ Hv). cbn.
      split; [exact Ht | discriminate].
    + rewrite (resume_exec_caught _ _ Hv). cbn.
      split; [exact Ht | discriminate].
  - rewrite run_timer_exec. cbn.
    apply pop_next_perm in Hp.
    assert (Hall : Forall (fun t => In (timer_msg t) timer_texts) (t :: rest)).
    { rewrite Forall_forall in Ht |- *. intros x Hx. apply Ht.
      eapply Permutation_in; eauto. }
    inversion Hall; subst. split; [assumption |].
    intros _. now right.
  - cbn. auto.
Qed.


End Further.

(** ** The further properties on concrete runs *)



(** An error response whose [detail] is an object takes the page off the
    screen: nothing is mounted and no click does anything any more. *)
Example object_detail_unmounts_page :
  page_step (env := demo_env) (Settle 0 (Rejected object_detail_error))
            pending_world = Some unmounted_world
  /\ error (st unmounted_world) = JObj [("code", JStr "invalid")]
  /\ mount (st unmounted_world) = None
  /\ page_step (env := demo_env) (Click "retry-button") unmounted_world
     = None
  /\ page_step (env := demo_env) (Click "generate-button") unmounted_world
     = None.
Proof. repeat split. Qed.


Lemma one_request_at_a_time_witness :
  (inflight pending_world = [] /\ loading (st pending_world) = false)
  \/ (inflight pending_world = [demo_request]
      /\ loading (st pending_world) = true).
Proof.
  exact (one_request_at_a_time (env := demo_env) pending_world
           pending_reachable).
Defined.

(** An empty [image_base64] is treated like a missing one. *)
Lemma resolved_decided_by_truthiness_witness :
  nth_error (inflight pending_world) 0 = Some demo_request
  /\ exists w',
       step (env := demo_env) (Settle 0 (Resolved empty_image_response))
            pending_world = Some w'
       /\ st w' = mkState false JNull (JStr "No image data received") "".
Proof.
  split; [reflexivity |].
  exact (resolved_decided_by_truthiness (env := demo_env) pending_world 0
           demo_request empty_image_response pending_reachable eq_refl).
Defined.

Lemma cells_null_or_truthy_witness :
  reachable (env := demo_env) result_world
  /\ forall s, In s (st result_world :: history result_world) ->
     null_or_truthy (error s) /\ null_or_truthy (generatedImage s).
Proof.
  split; [exact result_reachable |].
  exact (cells_null_or_truthy (env := demo_env) result_world
           result_reachable).
Defined.

Lemma only_clicks_start_requests_witness :
  step (env := demo_env) (Click "retry-button") failed_world
  = Some (exec (generateInfographic (env := demo_env)) failed_world)
  /\ inflight (exec (generateInfographic (env := demo_env)) failed_world)
     = inflight failed_world ++ [demo_request].
Proof.
  split; [reflexivity |].
  exact (only_clicks_start_requests (env := demo_env) (Click "retry-button")
           failed_world
           (exec (generateInfographic (env := demo_env)) failed_world)
           eq_refl).
Defined.

(** The timer that fires after the image has arrived changes the message
    cell and nothing on screen. *)
Lemma timers_are_cosmetic_witness :
  step (env := demo_env) Fire late_world = Some late_fired_world
  /\ loadingMessage (st late_fired_world) = "Analyzing data and structure..."
  /\ render (st late_fired_world) = render (st late_world).
Proof.
  destruct (timers_are_cosmetic (env := demo_env) late_world late_fired_world
              eq_refl) as (_ & _ & _ & _ & _ & _ & Hrender).
  split; [reflexivity |]. split; [reflexivity |].
  exact (Hrender eq_refl).
Defined.

Lemma failures_are_logged_witness :
  step (env := demo_env) (Settle 0 (Rejected network_error)) pending_world
  = Some failed_world
  /\ console failed_world =
     console pending_world
     ++ [("Error generating infographic:", network_error)].
Proof.
  split; [reflexivity |].
  exact (failures_are_logged (env := demo_env)
           (Settle 0 (Rejected network_error)) pending_world failed_world
           eq_refl).
Defined.

Lemma downloaded_reachable : reachable (env := demo_env) downloaded_world.
Proof. exists (demo_events ++ [Click "download-button"]). reflexivity. Defined.

Lemma document_left_clean_witness :
  dom downloaded_world <> []
  /\ exists links,
       dom downloaded_world = flat_map save_events links
       /\ Forall (fun a => download a = "visa-wwc-infographic.png"
                           /\ truthy (href a) = true) links.
Proof.
  split; [discriminate |].
  exact (document_left_clean (env := demo_env) downloaded_world
           downloaded_reachable).
Defined.

(** Two clicks have run the handler and one timer has fired: five are left. *)
Lemma timers_are_never_dropped_witness :
  run (env := demo_env) demo_events initial_world = Some result_world
  /\ List.length (timers result_world) + 1 = 0 + 3 * 2.
Proof.
  split; [reflexivity |].
  exact (timers_are_never_dropped (env := demo_env) demo_events initial_world
           result_world eq_refl).
Defined.

Lemma spinner_caption_is_a_progress_text_witness :
  loading (st regenerating_world) = true
  /\ In (loadingMessage (st regenerating_world)) progress_texts.
Proof.
  split; [reflexivity |].
  apply (spinner_caption_is_a_progress_text (env := demo_env)
           regenerating_world); [| reflexivity].
  exists (demo_events ++ [Click "regenerate-button"; Tick 100]). reflexivity.
Defined.

